(** * OSActivityShims.h: the Etcetera shims over <os/activity.h>

    The header defines six [OS_INLINE OS_ALWAYS_INLINE] functions, each a
    single statement that hands its arguments to the platform's activity
    tracing facility.  The development has two layers:

    - the shim bodies, transcribed from the header as straight-line programs
      over the actions a C function body can perform on its environment
      (calling one of the platform routines of <os/activity.h>, or touching
      caller memory);
    - the platform itself, which is not part of the repository: either an
      arbitrary interpretation of those actions, or the reference model of
      the tracing subsystem written from the specification. *)

From stdpp Require Import gmap list.
From Stdlib Require Import ZArith Lia.

Local Open Scope Z_scope.

(** ** C data *)

(** The pointee types that occur in the header. *)
Inductive ctype : Type :=
| c_void
| c_char
| c_uint8_t
| c_os_activity_s
| c_os_activity_scope_state_s
| c_const (t : ctype).

(** A pointer is an address together with its static pointee type; the null
    pointer is address 0. *)
Record pointer (t : ctype) : Type := Ptr { address : Z }.
Arguments Ptr {t} _.
Arguments address {t} _.

Definition NULL {t : ctype} : pointer t := Ptr 0.

Definition is_null {t : ctype} (p : pointer t) : bool := address p =? 0.

(** A C pointer cast [(t * )p]: the static type changes, the address does not. *)
Definition cast {s : ctype} (t : ctype) (p : pointer s) : pointer t :=
  Ptr (address p).

(** [os_activity_t] and [os_activity_scope_state_t] are pointers to opaque
    platform objects; [os_activity_flag_t] is an enumeration over [uint32_t]. *)
Definition os_activity_t : Type := pointer c_os_activity_s.
Definition os_activity_scope_state_t : Type := pointer c_os_activity_scope_state_s.
Definition uint32_t : Type := Z.
Definition os_activity_flag_t : Type := uint32_t.
Definition uint8_t : Type := Byte.byte.

(** ** What a function body can do *)

(** The routines declared by <os/activity.h> that the header calls, and the
    three ways a C function can touch memory it was handed a pointer to.
    The index is the type of the value the action hands back. *)
Inductive action : Type -> Type :=
| _os_activity_create (dso : pointer c_void) (description : pointer (c_const c_char))
    (parent : os_activity_t) (flags : os_activity_flag_t) : action os_activity_t
| _os_activity_label_useraction (dso : pointer c_void)
    (name : pointer (c_const c_char)) : action unit
| os_activity_scope_enter (activity : os_activity_t)
    (state : os_activity_scope_state_t) : action unit
| os_activity_scope_leave (state : os_activity_scope_state_t) : action unit
| mem_load (a : Z) : action uint8_t
| mem_store (a : Z) (b : uint8_t) : action unit
| mem_free (a : Z) : action unit.

(** Straight-line programs: return a value, or perform an action and go on
    with its answer. *)
Inductive prog (R : Type) : Type :=
| Ret (r : R)
| Vis (X : Type) (a : action X) (k : X -> prog R).
Arguments Ret {R} _.
Arguments Vis {R X} _ _.

(** [return f(args);] and, for a [void] routine, [f(args);]. *)
Definition call {X : Type} (a : action X) : prog X := Vis a Ret.

Fixpoint bind {A B : Type} (p : prog A) (f : A -> prog B) : prog B :=
  match p with
  | Ret r => f r
  | Vis a k => Vis a (fun x => bind (k x) f)
  end.

(** A platform gives every action a meaning on its state [W]; [None] stands
    for behaviour the platform leaves undefined. *)
Definition handler (W : Type) : Type :=
  forall X : Type, action X -> W -> option (X * W).

Fixpoint exec {W R : Type} (h : handler W) (p : prog R) (w : W) : option (R * W) :=
  match p with
  | Ret r => Some (r, w)
  | Vis a k =>
      match h _ a w with
      | Some (x, w') => exec h (k x) w'
      | None => None
      end
  end.

(** Which actions are platform calls and which are memory accesses. *)
Definition is_platform_call {X : Type} (a : action X) : bool :=
  match a with
  | _os_activity_create _ _ _ _ => true
  | _os_activity_label_useraction _ _ => true
  | os_activity_scope_enter _ _ => true
  | os_activity_scope_leave _ => true
  | mem_load _ => false
  | mem_store _ _ => false
  | mem_free _ => false
  end.

(** A program that performs no load, store or free, whatever answers the
    platform gives. *)
Fixpoint touches_no_memory {R : Type} (p : prog R) : Prop :=
  match p with
  | Ret _ => True
  | Vis a k => is_platform_call a = true /\ forall x, touches_no_memory (k x)
  end.

(** ** The sentinels of <os/activity.h> *)

(** [OS_ACTIVITY_NONE] and [OS_ACTIVITY_CURRENT] are macros of the platform
    header naming two well-known activity objects. *)
Class OSActivityHeader : Type := {
  OS_ACTIVITY_NONE : os_activity_t;
  OS_ACTIVITY_CURRENT : os_activity_t
}.

(** ** The shims (OSActivityShims.h, lines 14-46) *)

Section Shims.
Context `{OSActivityHeader}.

Definition _etcetera_os_activity_none : prog os_activity_t :=
  Ret OS_ACTIVITY_NONE.

Definition _etcetera_os_activity_current : prog os_activity_t :=
  Ret OS_ACTIVITY_CURRENT.

Definition _etcetera_os_activity_create
    (dso : pointer (c_const c_void)) (description : pointer (c_const c_uint8_t))
    (parent : os_activity_t) (flags : uint32_t) : prog os_activity_t :=
  call (_os_activity_create (cast c_void dso) (cast (c_const c_char) description)
          parent flags).

Definition _etcetera_os_activity_label_useraction
    (dso : pointer (c_const c_void)) (name : pointer (c_const c_uint8_t)) : prog unit :=
  call (_os_activity_label_useraction (cast c_void dso) (cast (c_const c_char) name)).

Definition _etcetera_os_activity_scope_enter
    (activity : os_activity_t) (state : os_activity_scope_state_t) : prog unit :=
  call (os_activity_scope_enter activity state).

Definition _etcetera_os_activity_scope_leave
    (state : os_activity_scope_state_t) : prog unit :=
  call (os_activity_scope_leave state).

End Shims.

(** ** Sequences of shim calls *)

(** One call of one of the six functions, with its arguments. *)
Inductive shim_call : Type :=
| call_none
| call_current
| call_create (dso : pointer (c_const c_void)) (description : pointer (c_const c_uint8_t))
    (parent : os_activity_t) (flags : uint32_t)
| call_label_useraction (dso : pointer (c_const c_void))
    (name : pointer (c_const c_uint8_t))
| call_scope_enter (activity : os_activity_t) (state : os_activity_scope_state_t)
| call_scope_leave (state : os_activity_scope_state_t).

Definition is_scope_enter (c : shim_call) : bool :=
  match c with
  | call_scope_enter _ _ => true
  | _ => false
  end.

Section Calls.
Context `{OSActivityHeader}.

(** The body run by a call, its result dropped. *)
Definition shim_body (c : shim_call) : prog unit :=
  match c with
  | call_none => bind _etcetera_os_activity_none (fun _ => Ret tt)
  | call_current => bind _etcetera_os_activity_current (fun _ => Ret tt)
  | call_create dso description parent flags =>
      bind (_etcetera_os_activity_create dso description parent flags) (fun _ => Ret tt)
  | call_label_useraction dso name => _etcetera_os_activity_label_useraction dso name
  | call_scope_enter activity state => _etcetera_os_activity_scope_enter activity state
  | call_scope_leave state => _etcetera_os_activity_scope_leave state
  end.

(** The caller makes the calls one after the other on one execution context. *)
Fixpoint run {W : Type} (h : handler W) (cs : list shim_call) (w : W) : option W :=
  match cs with
  | [] => Some w
  | c :: cs' =>
      match exec h (shim_body c) w with
      | Some (_, w') => run h cs' w'
      | None => None
      end
  end.

(** The same, keeping the state reached after each call. *)
Fixpoint run_log {W : Type} (h : handler W) (cs : list shim_call) (w : W)
  : option (list W) :=
  match cs with
  | [] => Some []
  | c :: cs' =>
      match exec h (shim_body c) w with
      | Some (_, w') =>
          match run_log h cs' w' with
          | Some ws => Some (w' :: ws)
          | None => None
          end
      | None => None
      end
  end.

End Calls.

#[local] Set Warnings "-register-all".

(** Nested scopes: a scope is one enter/leave pair on a scope-state buffer,
    with the scopes opened and closed between the two. *)
Inductive scope : Type :=
| Scope (activity : os_activity_t) (state : os_activity_scope_state_t)
    (inner : list scope).

Fixpoint scope_calls (s : scope) : list shim_call :=
  match s with
  | Scope activity state inner =>
      call_scope_enter activity state
        :: flat_map scope_calls inner ++ [call_scope_leave state]
  end.

(** Handles and buffers are non-null, and no scope uses the buffer of a scope
    that is still open around it. *)
Fixpoint well_nested (enclosing : list Z) (s : scope) : bool :=
  match s with
  | Scope activity state inner =>
      negb (is_null activity) && negb (is_null state)
      && negb (existsb (Z.eqb (address state)) enclosing)
      && forallb (well_nested (address state :: enclosing)) inner
  end.

(** Last-in-first-out unwinding, said on the nesting itself: after each call
    of [scope_calls s] the activities in scope are exactly those of the pairs
    entered and not yet left, innermost first, on top of those [below]. *)
Fixpoint lifo_stacks (below : list os_activity_t) (s : scope)
  : list (list os_activity_t) :=
  match s with
  | Scope activity state inner =>
      (activity :: below)
        :: flat_map (lifo_stacks (activity :: below)) inner ++ [below]
  end.

(** ** The tracing subsystem, from the specification

    The routines behind <os/activity.h> belong to the operating system and
    are not in the repository.  The model below follows the contract table of
    the specification (section 4.1) and its data model (section 3): a call
    whose stated input constraint is violated has no defined result
    ([None]). *)

(** Modelled from the spec: the state of the tracing subsystem as one
    execution context sees it.  The registered activities with their parent
    (newest first), the active-scope stack (innermost first), the populated
    scope-state buffers by address (each holding what enter recorded for the
    unwind: how many scopes were open below it), the user-action annotations
    of the trace stream (module token and label, oldest first), and the
    caller-owned descriptor/name bytes by address. *)
Record tracing : Type := Tracing {
  activities : list (os_activity_t * os_activity_t);
  scope_stack : list os_activity_t;
  scope_states : gmap Z nat;
  trace_stream : list (Z * option Z);
  byte_buffers : gmap Z uint8_t
}.

(** The activity that is active: the innermost open scope, if any. *)
Definition active_activity (w : tracing) : option os_activity_t :=
  head (scope_stack w).

Section Model.
Context `{OSActivityHeader}.

(** Modelled from the spec: "a newly minted activity handle" is a non-null
    address used neither by a sentinel nor by an activity registered so far. *)
Definition mint (w : tracing) : os_activity_t :=
  Ptr (1 + foldr Z.max
             (Z.max 0 (Z.max (address OS_ACTIVITY_NONE) (address OS_ACTIVITY_CURRENT)))
             (map (fun r => address (fst r)) (activities w))).

(** Modelled from the spec: [_os_activity_create], absent from the
    repository.  Constraints: module token non-null, parent non-null; the
    description is optional.  Result: a newly minted handle.  Effect:
    registers the activity and records its parent. *)
Definition model_os_activity_create (dso : pointer c_void)
    (description : pointer (c_const c_char)) (parent : os_activity_t)
    (flags : os_activity_flag_t) (w : tracing) : option (os_activity_t * tracing) :=
  if is_null dso || is_null parent then None
  else Some (mint w,
             {| activities := (mint w, parent) :: activities w;
                scope_stack := scope_stack w;
                scope_states := scope_states w;
                trace_stream := trace_stream w;
                byte_buffers := byte_buffers w |}).

(** Modelled from the spec: [_os_activity_label_useraction], absent from the
    repository.  Constraint: module token non-null; the name is optional.
    Effect: annotates the trace stream with a user-action label. *)
Definition model_os_activity_label_useraction (dso : pointer c_void)
    (name : pointer (c_const c_char)) (w : tracing) : option (unit * tracing) :=
  if is_null dso then None
  else Some (tt,
             {| activities := activities w;
                scope_stack := scope_stack w;
                scope_states := scope_states w;
                trace_stream :=
                  trace_stream w
                    ++ [(address dso, if is_null name then None else Some (address name))];
                byte_buffers := byte_buffers w |}).

(** Modelled from the spec: [os_activity_scope_enter], absent from the
    repository.  Constraints: activity non-null, buffer non-null.  Effect:
    pushes the activity onto the active-scope stack and populates the buffer
    for the later unwind. *)
Definition model_os_activity_scope_enter (activity : os_activity_t)
    (state : os_activity_scope_state_t) (w : tracing) : option (unit * tracing) :=
  if is_null activity || is_null state then None
  else Some (tt,
             {| activities := activities w;
                scope_stack := activity :: scope_stack w;
                scope_states :=
                  <[address state := length (scope_stack w)]> (scope_states w);
                trace_stream := trace_stream w;
                byte_buffers := byte_buffers w |}).

(** Modelled from the spec: [os_activity_scope_leave], absent from the
    repository.  Constraint: the buffer holds exactly what the matching enter
    populated, that is the enter of the innermost open scope; a mismatched or
    already consumed buffer is undefined.  Effect: pops the activity,
    restoring the previous active activity, and consumes the buffer. *)
Definition model_os_activity_scope_leave (state : os_activity_scope_state_t)
    (w : tracing) : option (unit * tracing) :=
  match scope_states w !! address state, scope_stack w with
  | Some below, _ :: rest =>
      if decide (length rest = below) then
        Some (tt,
              {| activities := activities w;
                 scope_stack := rest;
                 scope_states := delete (address state) (scope_states w);
                 trace_stream := trace_stream w;
                 byte_buffers := byte_buffers w |})
      else None
  | _, _ => None
  end.

(** Caller memory: a load reads an owned byte, a store overwrites one, a free
    gives one up; on a byte the caller does not own each is undefined. *)
Definition model_mem_load (a : Z) (w : tracing) : option (uint8_t * tracing) :=
  match byte_buffers w !! a with
  | Some b => Some (b, w)
  | None => None
  end.

Definition model_mem_store (a : Z) (b : uint8_t) (w : tracing)
  : option (unit * tracing) :=
  match byte_buffers w !! a with
  | Some _ =>
      Some (tt,
            {| activities := activities w;
               scope_stack := scope_stack w;
               scope_states := scope_states w;
               trace_stream := trace_stream w;
               byte_buffers := <[a := b]> (byte_buffers w) |})
  | None => None
  end.

Definition model_mem_free (a : Z) (w : tracing) : option (unit * tracing) :=
  match byte_buffers w !! a with
  | Some _ =>
      Some (tt,
            {| activities := activities w;
               scope_stack := scope_stack w;
               scope_states := scope_states w;
               trace_stream := trace_stream w;
               byte_buffers := delete a (byte_buffers w) |})
  | None => None
  end.

(** Modelled from the spec: the platform as a whole. *)
Definition model_platform : handler tracing :=
  fun X a =>
    match a in action X return tracing -> option (X * tracing) with
    | _os_activity_create dso description parent flags =>
        model_os_activity_create dso description parent flags
    | _os_activity_label_useraction dso name =>
        model_os_activity_label_useraction dso name
    | os_activity_scope_enter activity state =>
        model_os_activity_scope_enter activity state
    | os_activity_scope_leave state => model_os_activity_scope_leave state
    | mem_load a => model_mem_load a
    | mem_store a b => model_mem_store a b
    | mem_free a => model_mem_free a
    end.

End Model.

(** A concrete header and starting state, to run the definitions on. *)
Definition sample_header : OSActivityHeader :=
  {| OS_ACTIVITY_NONE := Ptr 4096; OS_ACTIVITY_CURRENT := Ptr 4104 |}.

Definition idle : tracing :=
  {| activities := [];
     scope_stack := [];
     scope_states := empty;
     trace_stream := [];
     byte_buffers := <[200 := Byte.x68]> (<[201 := Byte.x69]> (<[202 := Byte.x00]> empty)) |}.

(** ** The forwarding contract, in the specification's words *)

(** "The function performs a type cast and forwards immediately to the
    underlying platform routine; the platform routine's return value (if any)
    is passed back unchanged.  There is no internal state": on every platform
    and in every state, running [p] is performing [a], result and state
    included. *)
Definition forwards_to {R : Type} (p : prog R) (a : action R) : Prop :=
  forall (W : Type) (h : handler W) (w : W), exec h p w = h R a w.

(** A function that hands back a constant of the platform header and leaves
    every state as it found it. *)
Definition yields_constant {R : Type} (p : prog R) (c : R) : Prop :=
  forall (W : Type) (h : handler W) (w : W), exec h p w = Some (c, w).

(** ** Unwinding of nested scopes on the model *)

Section Unwinding.
Context `{OSActivityHeader}.

(** Running the calls [cs] from [w] on the model goes through, the stacks
    after each call are [stacks], the stack at the end is the one at the
    start, and the scope-state buffers at the addresses [enclosing] (those of
    the scopes open around [cs]) hold what they held. *)
Definition unwinds (enclosing : list Z) (cs : list shim_call)
    (stacks : list (list os_activity_t)) (w : tracing) : Prop :=
  exists (ws : list tracing) (w' : tracing),
    run_log model_platform cs w = Some ws
    /\ run model_platform cs w = Some w'
    /\ map scope_stack ws = stacks
    /\ scope_stack w' = scope_stack w
    /\ forall b : Z, In b enclosing -> scope_states w' !! b = scope_states w !! b.

End Unwinding.

(** ** Observing what the platform receives *)

(** The two functions that only hand back a constant of the header. *)
Definition is_sentinel_getter (c : shim_call) : bool :=
  match c with
  | call_none => true
  | call_current => true
  | _ => false
  end.

(** An action as the platform receives it, the type of its answer packed
    with it. *)
Definition received : Type := {X : Type & action X}.

(** The action a program starts with, if it starts with one. *)
Definition first_action {R : Type} (p : prog R) : list received :=
  match p with
  | Ret _ => []
  | Vis a _ => [existT _ a]
  end.

(** A platform that behaves as [h] does and keeps, oldest first, the actions
    it has carried out. *)
Definition recording {W : Type} (h : handler W) : handler (W * list received) :=
  fun X a s =>
    match h X a (fst s) with
    | Some (x, w') => Some (x, (w', snd s ++ [existT X a]))
    | None => None
    end.

(** Two outcomes that are both undefined, or both defined with final states
    related by [R]. *)
Definition same_outcome {W1 W2 : Type} (R : W1 -> W2 -> Prop)
    (o1 : option W1) (o2 : option W2) : Prop :=
  match o1, o2 with
  | Some w1, Some w2 => R w1 w2
  | None, None => True
  | _, _ => False
  end.

(** ** Passing a routine's outcome through *)

(** Running [p] in [w] is undefined exactly when the platform routine [a] is,
    and completes with a result and a final state exactly when [a] completes
    with that result and that state: nothing is checked before the call, and
    nothing is put in the place of what the routine gives. *)
Definition passes_through {W R : Type} (h : handler W) (p : prog R)
    (a : action R) (w : W) : Prop :=
  is_platform_call a = true
  /\ (exec h p w = None <-> h R a w = None)
  /\ (forall (r : R) (w' : W), exec h p w = Some (r, w') <-> h R a w = Some (r, w')).

(** A platform that accepts every routine call whatever its arguments, null
    ones included: create answers with the parent it was given, and the state
    counts the calls carried out.  It serves no memory access. *)
Definition lenient_platform : handler nat :=
  fun X a =>
    match a in action X return nat -> option (X * nat) with
    | _os_activity_create _ _ parent _ => fun n => Some (parent, S n)
    | _os_activity_label_useraction _ _ => fun n => Some (tt, S n)
    | os_activity_scope_enter _ _ => fun n => Some (tt, S n)
    | os_activity_scope_leave _ => fun n => Some (tt, S n)
    | mem_load _ => fun _ => None
    | mem_store _ _ => fun _ => None
    | mem_free _ => fun _ => None
    end.

(** * Properties *)

(** ** Running programs *)

Section Exec.
Context {W : Type} (h : handler W).

Lemma exec_call {X : Type} (a : action X) (w : W) : exec h (call a) w = h X a w.
Proof.
  unfold call. cbn [exec].
  destruct (h X a w) as [[x w']|]; reflexivity.
Qed.

Lemma exec_bind {A B : Type} (p : prog A) (f : A -> prog B) (w : W) :
  exec h (bind p f) w =
  match exec h p w with
  | Some (x, w') => exec h (f x) w'
  | None => None
  end.
Proof.
  revert w. induction p as [r | X a k IH]; intros w; cbn [bind exec].
  - reflexivity.
  - destruct (h X a w) as [[x w']|]; [apply IH | reflexivity].
Qed.

Lemma exec_call_drop {X : Type} (a : action X) (w : W) :
  exec h (bind (call a) (fun _ => Ret tt)) w =
  match h X a w with
  | Some (_, w') => Some (tt, w')
  | None => None
  end.
Proof.
  rewrite exec_bind, exec_call.
  destruct (h X a w) as [[x w']|]; reflexivity.
Qed.

Context `{OSActivityHeader}.

Lemma run_app (cs1 cs2 : list shim_call) (w : W) :
  run h (cs1 ++ cs2) w =
  match run h cs1 w with
  | Some w' => run h cs2 w'
  | None => None
  end.
Proof.
  revert w. induction cs1 as [| c cs1 IH]; intros w; cbn [app run].
  - reflexivity.
  - destruct (exec h (shim_body c) w) as [[u w']|]; [apply IH | reflexivity].
Qed.

Lemma exec_current (w : W) :
  exec h _etcetera_os_activity_current w = Some (OS_ACTIVITY_CURRENT, w).
Proof. reflexivity. Qed.

Lemma exec_none (w : W) :
  exec h _etcetera_os_activity_none w = Some (OS_ACTIVITY_NONE, w).
Proof. reflexivity. Qed.

End Exec.

(** ** The casts *)

Lemma address_cast {s : ctype} (t : ctype) (p : pointer s) :
  address (cast t p) = address p.
Proof. destruct p as [a]. reflexivity. Qed.

Lemma is_null_cast {s : ctype} (t : ctype) (p : pointer s) :
  is_null (cast t p) = is_null p.
Proof. unfold is_null. rewrite address_cast. reflexivity. Qed.

Lemma cast_NULL (s t : ctype) : cast t (@NULL s) = NULL.
Proof. reflexivity. Qed.

Lemma shim_body_touches_no_memory `{OSActivityHeader} (c : shim_call) :
  touches_no_memory (shim_body c).
Proof.
  destruct c; cbn; repeat split.
Qed.

(** ** Forwarding *)

(** C1. Each shim function is extensionally the platform primitive applied to
    its cast arguments: on every platform and in every state, running
    create, label-useraction, scope-enter or scope-leave gives exactly what
    the routine it names gives on the cast arguments (same result, same final
    state, no state of the shim's own), and the two sentinel getters hand
    back the header's constant and leave the state alone. *)
Theorem etcetera_shims_forward `{OSActivityHeader} :
  yields_constant _etcetera_os_activity_none OS_ACTIVITY_NONE
  /\ yields_constant _etcetera_os_activity_current OS_ACTIVITY_CURRENT
  /\ (forall dso description parent flags,
        forwards_to (_etcetera_os_activity_create dso description parent flags)
          (_os_activity_create (cast c_void dso) (cast (c_const c_char) description)
             parent flags))
  /\ (forall dso name,
        forwards_to (_etcetera_os_activity_label_useraction dso name)
          (_os_activity_label_useraction (cast c_void dso)
             (cast (c_const c_char) name)))
  /\ (forall activity state,
        forwards_to (_etcetera_os_activity_scope_enter activity state)
          (os_activity_scope_enter activity state))
  /\ (forall state,
        forwards_to (_etcetera_os_activity_scope_leave state)
          (os_activity_scope_leave state)).
Proof.
  split; [intros W h w; apply exec_none |].
  split; [intros W h w; apply exec_current |].
  repeat split; intros; intros W h w; apply exec_call.
Qed.

(** C3. Every call of get-none-activity returns [OS_ACTIVITY_NONE] and leaves
    the state as it was; any two calls, on any platforms and in any states,
    return equal handles. *)
Theorem none_is_the_sentinel `{OSActivityHeader}
    (W1 W2 : Type) (h1 : handler W1) (h2 : handler W2) (w1 : W1) (w2 : W2) :
  exec h1 _etcetera_os_activity_none w1 = Some (OS_ACTIVITY_NONE, w1)
  /\ fst <$> exec h1 _etcetera_os_activity_none w1
     = fst <$> exec h2 _etcetera_os_activity_none w2.
Proof.
  split.
  - apply exec_none.
  - rewrite !exec_none. reflexivity.
Qed.

(** C4. get-current-activity returns the sentinel [OS_ACTIVITY_CURRENT], and
    two calls of it separated by shim calls none of which is a scope-enter
    return the same handle. *)
Theorem current_is_stable `{OSActivityHeader} (W : Type) (h : handler W)
    (cs : list shim_call) (w w' : W) :
  forallb (fun c => negb (is_scope_enter c)) cs = true ->
  run h cs w = Some w' ->
  exists a : os_activity_t,
    exec h _etcetera_os_activity_current w = Some (a, w)
    /\ exec h _etcetera_os_activity_current w' = Some (a, w')
    /\ a = OS_ACTIVITY_CURRENT.
Proof.
  intros _ _. exists OS_ACTIVITY_CURRENT.
  split; [apply exec_current |].
  split; [apply exec_current | reflexivity].
Qed.

Lemma current_is_stable_witness :
  exists w' : tracing,
    @run sample_header _ (@model_platform sample_header)
      [call_label_useraction (Ptr 64) (Ptr 200); call_none;
       call_create (Ptr 64) NULL (Ptr 4104) 0] idle = Some w'
    /\ exists a : os_activity_t,
         exec (@model_platform sample_header)
           (@_etcetera_os_activity_current sample_header) idle = Some (a, idle)
         /\ exec (@model_platform sample_header)
              (@_etcetera_os_activity_current sample_header) w' = Some (a, w')
         /\ a = @OS_ACTIVITY_CURRENT sample_header.
Proof.
  eexists. split.
  - vm_compute. reflexivity.
  - apply (@current_is_stable sample_header tracing (@model_platform sample_header)
             [call_label_useraction (Ptr 64) (Ptr 200); call_none;
              call_create (Ptr 64) NULL (Ptr 4104) 0] idle).
    + reflexivity.
    + vm_compute. reflexivity.
Defined.

(** C9. The handle returned by get-current-activity is the constant
    [OS_ACTIVITY_CURRENT] in every state of every platform, so it is the same
    before and after any sequence of shim calls, scope-enter and scope-leave
    included. *)
Theorem current_is_a_constant `{OSActivityHeader} (W : Type) (h : handler W)
    (cs : list shim_call) (w w' : W) :
  run h cs w = Some w' ->
  fst <$> exec h _etcetera_os_activity_current w = Some OS_ACTIVITY_CURRENT
  /\ fst <$> exec h _etcetera_os_activity_current w' = Some OS_ACTIVITY_CURRENT
  /\ (forall (W2 : Type) (h2 : handler W2) (w2 : W2),
        fst <$> exec h2 _etcetera_os_activity_current w2
        = fst <$> exec h _etcetera_os_activity_current w).
Proof.
  intros _. rewrite !exec_current. cbn.
  split; [reflexivity |]. split; [reflexivity |].
  intros W2 h2 w2. reflexivity.
Qed.

Lemma current_is_a_constant_witness :
  exists w' : tracing,
    @run sample_header _ (@model_platform sample_header)
      [call_scope_enter (Ptr 4105) (Ptr 800); call_scope_enter (Ptr 4106) (Ptr 816);
       call_scope_leave (Ptr 816)] idle = Some w'
    /\ active_activity w' = Some (Ptr 4105)
    /\ fst <$> exec (@model_platform sample_header)
                 (@_etcetera_os_activity_current sample_header) idle
       = Some (Ptr 4104)
    /\ fst <$> exec (@model_platform sample_header)
                 (@_etcetera_os_activity_current sample_header) w'
       = Some (Ptr 4104).
Proof.
  eexists. split; [vm_compute; reflexivity |].
  split; [reflexivity |].
  pose proof (@current_is_a_constant sample_header tracing
                (@model_platform sample_header)
                [call_scope_enter (Ptr 4105) (Ptr 800);
                 call_scope_enter (Ptr 4106) (Ptr 816);
                 call_scope_leave (Ptr 816)] idle _ ltac:(vm_compute; reflexivity))
    as (H1 & H2 & _).
  split; [exact H1 | exact H2].
Defined.

(** C10. create-activity and label-useraction hand the description/name
    pointer to the primitive under a cast that keeps its address: the
    function is one call of the primitive whose description argument has the
    address of the one received and is null exactly when that one is, a null
    pointer is forwarded as the null pointer, and the function performs no
    load, store or free. *)
Theorem description_forwarded_unchanged :
  (forall dso description parent flags,
     exists d : pointer (c_const c_char),
       _etcetera_os_activity_create dso description parent flags
       = call (_os_activity_create (cast c_void dso) d parent flags)
       /\ address d = address description
       /\ is_null d = is_null description
       /\ touches_no_memory (_etcetera_os_activity_create dso description parent flags))
  /\ (forall dso name,
        exists n : pointer (c_const c_char),
          _etcetera_os_activity_label_useraction dso name
          = call (_os_activity_label_useraction (cast c_void dso) n)
          /\ address n = address name
          /\ is_null n = is_null name
          /\ touches_no_memory (_etcetera_os_activity_label_useraction dso name))
  /\ (forall dso parent flags,
        _etcetera_os_activity_create dso NULL parent flags
        = call (_os_activity_create (cast c_void dso) NULL parent flags))
  /\ (forall dso,
        _etcetera_os_activity_label_useraction dso NULL
        = call (_os_activity_label_useraction (cast c_void dso) NULL)).
Proof.
  split; [| split; [| split]].
  - intros dso description parent flags.
    exists (cast (c_const c_char) description).
    split; [reflexivity |].
    split; [apply address_cast |].
    split; [apply is_null_cast |].
    cbn. split; [reflexivity | intros; exact I].
  - intros dso name.
    exists (cast (c_const c_char) name).
    split; [reflexivity |].
    split; [apply address_cast |].
    split; [apply is_null_cast |].
    cbn. split; [reflexivity | intros; exact I].
  - intros dso parent flags.
    unfold _etcetera_os_activity_create. rewrite cast_NULL. reflexivity.
  - intros dso.
    unfold _etcetera_os_activity_label_useraction. rewrite cast_NULL. reflexivity.
Qed.

(** Every shim call is a constant or one platform call, fixed by the
    arguments alone. *)
Lemma shim_body_outcome `{OSActivityHeader} (c : shim_call) :
  (forall (W : Type) (h : handler W) (w : W),
     exec h (shim_body c) w = Some (tt, w))
  \/ (exists (X : Type) (a : action X),
        is_platform_call a = true
        /\ forall (W : Type) (h : handler W) (w : W),
             exec h (shim_body c) w = (fun r => (tt, snd r)) <$> h X a w).
Proof.
  assert (Hdrop : forall (X : Type) (a : action X) (W : Type) (h : handler W) (w : W),
             exec h (bind (call a) (fun _ => Ret tt)) w
             = (fun r => (tt, snd r)) <$> h X a w).
  { intros X a W h w. rewrite exec_call_drop.
    destruct (h X a w) as [[x w']|]; reflexivity. }
  assert (Hunit : forall (a : action unit) (W : Type) (h : handler W) (w : W),
             exec h (call a) w = (fun r => (tt, snd r)) <$> h unit a w).
  { intros a W h w. rewrite exec_call.
    destruct (h unit a w) as [[[] w']|]; reflexivity. }
  destruct c as [| | dso description parent flags | dso name | activity state | state];
    cbn [shim_body].
  - left. reflexivity.
  - left. reflexivity.
  - right. unfold _etcetera_os_activity_create.
    exists _, (_os_activity_create (cast c_void dso)
                 (cast (c_const c_char) description) parent flags).
    split; [reflexivity | apply Hdrop].
  - right. unfold _etcetera_os_activity_label_useraction.
    exists _, (_os_activity_label_useraction (cast c_void dso)
                 (cast (c_const c_char) name)).
    split; [reflexivity | apply Hunit].
  - right. unfold _etcetera_os_activity_scope_enter.
    exists _, (os_activity_scope_enter activity state).
    split; [reflexivity | apply Hunit].
  - right. unfold _etcetera_os_activity_scope_leave.
    exists _, (os_activity_scope_leave state).
    split; [reflexivity | apply Hunit].
Qed.

Lemma call_passes_through {W R : Type} (h : handler W) (a : action R) (w : W) :
  is_platform_call a = true -> passes_through h (call a) a w.
Proof.
  intros Ha. unfold passes_through. rewrite exec_call.
  split; [exact Ha |]. split; [reflexivity | intros r w'; reflexivity].
Qed.

(** C6. This layer signals no error of its own and checks nothing.  On every
    platform, in every state and for every input, null pointers included:
    the two sentinel getters complete with the header's constant and leave
    the state alone; create-activity, label-useraction, scope-enter and
    scope-leave are undefined exactly when the platform routine they name is
    undefined on the cast arguments, and complete exactly when it completes,
    with the routine's own result (the handle for create, nothing for the
    other three) and the routine's own final state; so on a platform whose
    routines accept every input, every one of them completes on every
    input. *)
Theorem shims_signal_no_error `{OSActivityHeader} (W : Type) (h : handler W) (w : W) :
  exec h _etcetera_os_activity_none w = Some (OS_ACTIVITY_NONE, w)
  /\ exec h _etcetera_os_activity_current w = Some (OS_ACTIVITY_CURRENT, w)
  /\ (forall dso description parent flags,
        passes_through h (_etcetera_os_activity_create dso description parent flags)
          (_os_activity_create (cast c_void dso) (cast (c_const c_char) description)
             parent flags) w)
  /\ (forall dso name,
        passes_through h (_etcetera_os_activity_label_useraction dso name)
          (_os_activity_label_useraction (cast c_void dso)
             (cast (c_const c_char) name)) w)
  /\ (forall activity state,
        passes_through h (_etcetera_os_activity_scope_enter activity state)
          (os_activity_scope_enter activity state) w)
  /\ (forall state,
        passes_through h (_etcetera_os_activity_scope_leave state)
          (os_activity_scope_leave state) w)
  /\ ((forall (X : Type) (a : action X) (v : W),
         is_platform_call a = true -> is_Some (h X a v)) ->
      forall dso description parent flags name activity state,
        is_Some (exec h (_etcetera_os_activity_create dso description parent flags) w)
        /\ is_Some (exec h (_etcetera_os_activity_label_useraction dso name) w)
        /\ is_Some (exec h (_etcetera_os_activity_scope_enter activity state) w)
        /\ is_Some (exec h (_etcetera_os_activity_scope_leave state) w)).
Proof.
  split; [apply exec_none |]. split; [apply exec_current |].
  split; [intros; apply call_passes_through; reflexivity |].
  split; [intros; apply call_passes_through; reflexivity |].
  split; [intros; apply call_passes_through; reflexivity |].
  split; [intros; apply call_passes_through; reflexivity |].
  intros Htotal dso description parent flags name activity state.
  unfold _etcetera_os_activity_create, _etcetera_os_activity_label_useraction,
    _etcetera_os_activity_scope_enter, _etcetera_os_activity_scope_leave.
  rewrite !exec_call.
  repeat split; apply Htotal; reflexivity.
Qed.

Lemma shims_signal_no_error_witness :
  exec (@model_platform sample_header)
    (_etcetera_os_activity_create NULL (Ptr 200) (Ptr 4104) 0) idle = None
  /\ exec lenient_platform (_etcetera_os_activity_create NULL NULL NULL 7) 0%nat
     = Some (NULL, 1%nat)
  /\ exec lenient_platform (_etcetera_os_activity_scope_enter NULL NULL) 0%nat
     = Some (tt, 1%nat)
  /\ is_Some (exec lenient_platform (_etcetera_os_activity_scope_leave NULL) 0%nat).
Proof.
  destruct (@shims_signal_no_error sample_header tracing
              (@model_platform sample_header) idle)
    as (_ & _ & Hcreate & _).
  destruct (@shims_signal_no_error sample_header nat lenient_platform 0%nat)
    as (_ & _ & Hcreate' & _ & Henter' & _ & Htotal).
  split.
  { apply (proj1 (proj2 (Hcreate NULL (Ptr 200) (Ptr 4104) 0))). reflexivity. }
  split.
  { apply (proj2 (proj2 (Hcreate' NULL NULL NULL 7))). reflexivity. }
  split.
  { apply (proj2 (proj2 (Henter' NULL NULL))). reflexivity. }
  apply (Htotal
           ltac:(intros X a v Ha; destruct a; try discriminate Ha;
                 cbn; eexists; reflexivity)
           NULL NULL NULL 0 NULL NULL NULL).
Defined.

(** ** The model of the tracing subsystem *)

Section ModelFacts.
Context `{OSActivityHeader}.

Lemma exec_model_create dso description parent flags (w : tracing) :
  exec model_platform (_etcetera_os_activity_create dso description parent flags) w
  = model_os_activity_create (cast c_void dso) (cast (c_const c_char) description)
      parent flags w.
Proof. unfold _etcetera_os_activity_create. rewrite exec_call. reflexivity. Qed.

Lemma exec_model_label_useraction dso name (w : tracing) :
  exec model_platform (_etcetera_os_activity_label_useraction dso name) w
  = model_os_activity_label_useraction (cast c_void dso)
      (cast (c_const c_char) name) w.
Proof. unfold _etcetera_os_activity_label_useraction. rewrite exec_call. reflexivity. Qed.

Lemma exec_model_scope_enter activity state (w : tracing) :
  exec model_platform (_etcetera_os_activity_scope_enter activity state) w
  = model_os_activity_scope_enter activity state w.
Proof. unfold _etcetera_os_activity_scope_enter. rewrite exec_call. reflexivity. Qed.

Lemma exec_model_scope_leave state (w : tracing) :
  exec model_platform (_etcetera_os_activity_scope_leave state) w
  = model_os_activity_scope_leave state w.
Proof. unfold _etcetera_os_activity_scope_leave. rewrite exec_call. reflexivity. Qed.

(** Minting *)

Lemma foldr_max_base (base : Z) (l : list Z) : base <= foldr Z.max base l.
Proof. induction l as [| x l IH]; cbn [foldr]; lia. Qed.

Lemma foldr_max_elem (base x : Z) (l : list Z) : In x l -> x <= foldr Z.max base l.
Proof.
  induction l as [| y l IH]; cbn [foldr In]; [tauto |].
  intros [-> | Hin]; [lia |]. specialize (IH Hin). lia.
Qed.

Lemma mint_fresh (w : tracing) :
  0 < address (mint w)
  /\ address OS_ACTIVITY_NONE < address (mint w)
  /\ address OS_ACTIVITY_CURRENT < address (mint w)
  /\ forall r, In r (activities w) -> address (fst r) < address (mint w).
Proof.
  unfold mint. cbn [address].
  set (base := Z.max 0 (Z.max (address OS_ACTIVITY_NONE) (address OS_ACTIVITY_CURRENT))).
  pose proof (foldr_max_base base (map (fun r => address (fst r)) (activities w))) as Hb.
  repeat split; try lia.
  intros r Hr.
  pose proof (foldr_max_elem base (address (fst r))
                (map (fun r => address (fst r)) (activities w))) as He.
  specialize (He (in_map (fun r => address (fst r)) _ _ Hr)). lia.
Qed.

(** What the platform routines leave alone *)

Lemma model_platform_keeps_bytes (X : Type) (a : action X) (w w' : tracing) (x : X) :
  is_platform_call a = true ->
  model_platform X a w = Some (x, w') ->
  byte_buffers w' = byte_buffers w.
Proof.
  destruct a as [dso d parent flags | dso name | activity state | state | | |];
    cbn [is_platform_call model_platform]; intros Hc Hr; try discriminate Hc.
  - unfold model_os_activity_create in Hr.
    destruct (is_null dso || is_null parent); [discriminate Hr |].
    injection Hr as _ <-. reflexivity.
  - unfold model_os_activity_label_useraction in Hr.
    destruct (is_null dso); [discriminate Hr |].
    injection Hr as _ <-. reflexivity.
  - unfold model_os_activity_scope_enter in Hr.
    destruct (is_null activity || is_null state); [discriminate Hr |].
    injection Hr as _ <-. reflexivity.
  - unfold model_os_activity_scope_leave in Hr.
    destruct (scope_states w !! address state) as [below |]; [| discriminate Hr].
    destruct (scope_stack w) as [| top rest]; [discriminate Hr |].
    destruct (decide (length rest = below)); [| discriminate Hr].
    injection Hr as _ <-. reflexivity.
Qed.

(** Entering and leaving *)

Lemma model_scope_enter_ok activity state (w : tracing) :
  is_null activity = false -> is_null state = false ->
  model_os_activity_scope_enter activity state w
  = Some (tt,
          {| activities := activities w;
             scope_stack := activity :: scope_stack w;
             scope_states :=
               <[address state := length (scope_stack w)]> (scope_states w);
             trace_stream := trace_stream w;
             byte_buffers := byte_buffers w |}).
Proof.
  intros Ha Hs. unfold model_os_activity_scope_enter. rewrite Ha, Hs. reflexivity.
Qed.

Lemma model_scope_leave_matching state (w : tracing) top rest :
  scope_stack w = top :: rest ->
  scope_states w !! address state = Some (length rest) ->
  model_os_activity_scope_leave state w
  = Some (tt,
          {| activities := activities w;
             scope_stack := rest;
             scope_states := delete (address state) (scope_states w);
             trace_stream := trace_stream w;
             byte_buffers := byte_buffers w |}).
Proof.
  intros Hstack Hbuf. unfold model_os_activity_scope_leave.
  rewrite Hbuf, Hstack.
  destruct (decide (length rest = length rest)) as [_ | Hne]; [reflexivity |].
  exfalso. apply Hne. reflexivity.
Qed.

Lemma model_scope_enter_does activity state (w : tracing) :
  is_null activity = false -> is_null state = false ->
  exists w1 : tracing,
    model_os_activity_scope_enter activity state w = Some (tt, w1)
    /\ scope_stack w1 = activity :: scope_stack w
    /\ scope_states w1 = <[address state := length (scope_stack w)]> (scope_states w).
Proof.
  intros Ha Hs. eexists. rewrite (model_scope_enter_ok _ _ _ Ha Hs).
  repeat split.
Qed.

Lemma model_scope_leave_does state (w : tracing) top rest :
  scope_stack w = top :: rest ->
  scope_states w !! address state = Some (length rest) ->
  exists w' : tracing,
    model_os_activity_scope_leave state w = Some (tt, w')
    /\ scope_stack w' = rest
    /\ scope_states w' = delete (address state) (scope_states w).
Proof.
  intros Hstack Hbuf. eexists.
  rewrite (model_scope_leave_matching _ _ _ _ Hstack Hbuf).
  repeat split.
Qed.

End ModelFacts.

(** The model on concrete calls *)

Example create_mints_after_the_sentinels :
  exec (@model_platform sample_header)
    (_etcetera_os_activity_create (Ptr 64) NULL (@OS_ACTIVITY_CURRENT sample_header) 0)
    idle
  = Some (Ptr 4105 : os_activity_t,
          {| activities := [(Ptr 4105, Ptr 4104)];
             scope_stack := [];
             scope_states := empty;
             trace_stream := [];
             byte_buffers := byte_buffers idle |}).
Proof. reflexivity. Qed.

Example create_without_module_token :
  exec (@model_platform sample_header)
    (_etcetera_os_activity_create NULL (Ptr 200) (Ptr 4104) 0) idle = None.
Proof. reflexivity. Qed.

Example leave_out_of_order :
  @run sample_header _ (@model_platform sample_header)
    [call_scope_enter (Ptr 4105) (Ptr 800); call_scope_enter (Ptr 4106) (Ptr 816);
     call_scope_leave (Ptr 800)] idle
  = None.
Proof. vm_compute. reflexivity. Qed.

Example leave_twice :
  @run sample_header _ (@model_platform sample_header)
    [call_scope_enter (Ptr 4105) (Ptr 800); call_scope_leave (Ptr 800);
     call_scope_leave (Ptr 800)] idle
  = None.
Proof. vm_compute. reflexivity. Qed.

Example inner_scope_on_the_outer_buffer :
  @run sample_header _ (@model_platform sample_header)
    [call_scope_enter (Ptr 4105) (Ptr 800); call_scope_enter (Ptr 4106) (Ptr 800);
     call_scope_leave (Ptr 800); call_scope_leave (Ptr 800)] idle
  = None.
Proof. vm_compute. reflexivity. Qed.

(** ** Nullable buffers *)

(** C5. On the model of the tracing subsystem, for a non-null module token
    and a non-null parent, create-activity with a null description and flags
    0 completes and returns a non-null handle different from
    [OS_ACTIVITY_NONE] and from [OS_ACTIVITY_CURRENT]; and for every module
    token, parent, flags and description, create-activity does exactly what
    it does with a null description: same outcome, same handle, same state. *)
Theorem create_null_description `{OSActivityHeader} :
  (forall (dso : pointer (c_const c_void)) (parent : os_activity_t) (w : tracing),
     is_null dso = false -> is_null parent = false ->
     exists (a : os_activity_t) (w' : tracing),
       exec model_platform (_etcetera_os_activity_create dso NULL parent 0) w
       = Some (a, w')
       /\ a <> OS_ACTIVITY_NONE /\ a <> OS_ACTIVITY_CURRENT /\ is_null a = false)
  /\ (forall (dso : pointer (c_const c_void))
             (description : pointer (c_const c_uint8_t))
             (parent : os_activity_t) (flags : uint32_t) (w : tracing),
        exec model_platform
          (_etcetera_os_activity_create dso description parent flags) w
        = exec model_platform (_etcetera_os_activity_create dso NULL parent flags) w).
Proof.
  split.
  - intros dso parent w Hdso Hparent.
    rewrite exec_model_create. unfold model_os_activity_create.
    rewrite is_null_cast, Hdso, Hparent. cbn [orb].
    eexists _, _. split; [reflexivity |].
    destruct (mint_fresh w) as (Hpos & Hnone & Hcurrent & _).
    repeat split.
    + intros E. rewrite E in Hnone. lia.
    + intros E. rewrite E in Hcurrent. lia.
    + unfold is_null. apply Z.eqb_neq. lia.
  - intros dso description parent flags w.
    rewrite !exec_model_create. unfold model_os_activity_create. reflexivity.
Qed.

Lemma create_null_description_witness :
  (exists (a : os_activity_t) (w' : tracing),
     exec (@model_platform sample_header)
       (_etcetera_os_activity_create (Ptr 64) NULL (Ptr 4104) 0) idle = Some (a, w')
     /\ a <> @OS_ACTIVITY_NONE sample_header
     /\ a <> @OS_ACTIVITY_CURRENT sample_header
     /\ is_null a = false)
  /\ exec (@model_platform sample_header)
       (_etcetera_os_activity_create (Ptr 64) (Ptr 200) (Ptr 4104) 1) idle
     = exec (@model_platform sample_header)
         (_etcetera_os_activity_create (Ptr 64) NULL (Ptr 4104) 1) idle.
Proof.
  split.
  - apply (proj1 (@create_null_description sample_header) (Ptr 64) (Ptr 4104) idle);
      reflexivity.
  - apply (proj2 (@create_null_description sample_header)).
Defined.

(** C8. On the model of the tracing subsystem, for a non-null module token,
    label-useraction with a null name completes: it leaves an annotation with
    no label at the end of the trace stream. *)
Theorem label_useraction_null_name `{OSActivityHeader}
    (dso : pointer (c_const c_void)) (w : tracing) :
  is_null dso = false ->
  exists w' : tracing,
    exec model_platform (_etcetera_os_activity_label_useraction dso NULL) w
    = Some (tt, w')
    /\ trace_stream w' = trace_stream w ++ [(address dso, None)].
Proof.
  intros Hdso.
  rewrite exec_model_label_useraction. unfold model_os_activity_label_useraction.
  rewrite is_null_cast, Hdso.
  eexists. split; [reflexivity |].
  cbn [trace_stream]. rewrite address_cast. reflexivity.
Qed.

Lemma label_useraction_null_name_witness :
  is_null (Ptr 64 : pointer (c_const c_void)) = false
  /\ exists w' : tracing,
       exec (@model_platform sample_header)
         (_etcetera_os_activity_label_useraction (Ptr 64) NULL) idle = Some (tt, w')
       /\ trace_stream w' = trace_stream idle ++ [(64, None)].
Proof.
  split; [reflexivity |].
  apply (@label_useraction_null_name sample_header (Ptr 64) idle). reflexivity.
Defined.

(** ** Caller-owned bytes *)

(** The model does tell a store and a free from leaving the bytes alone. *)
Example store_changes_bytes :
  (byte_buffers <$> (snd <$> exec (@model_platform sample_header)
                               (call (mem_store 200 Byte.x48)) idle)) <> Some (byte_buffers idle).
Proof.
  intros E. apply (f_equal (fun o => o ≫= fun m : gmap Z uint8_t => m !! 200)) in E.
  vm_compute in E. discriminate E.
Qed.

Example free_changes_ownership :
  (byte_buffers <$> (snd <$> exec (@model_platform sample_header)
                               (call (mem_free 200)) idle)) <> Some (byte_buffers idle).
Proof.
  intros E. apply (f_equal (fun o => o ≫= fun m : gmap Z uint8_t => m !! 200)) in E.
  vm_compute in E. discriminate E.
Qed.

(** C7. No shim call mutates or frees caller-owned descriptor/name bytes, and
    the shim neither reads nor keeps them: the body of every shim call
    performs no load, store or free, and on the model of the tracing
    subsystem every shim call that completes leaves the caller's bytes, their
    contents and which of them the caller owns, exactly as they were. *)
Theorem caller_bytes_untouched `{OSActivityHeader} (c : shim_call) (w w' : tracing) :
  exec model_platform (shim_body c) w = Some (tt, w') ->
  touches_no_memory (shim_body c) /\ byte_buffers w' = byte_buffers w.
Proof.
  intros Hrun. split; [apply shim_body_touches_no_memory |].
  destruct (shim_body_outcome c) as [Hconst | (X & a & Hcall & Hfwd)].
  - rewrite Hconst in Hrun. injection Hrun as <-. reflexivity.
  - rewrite Hfwd in Hrun.
    destruct (model_platform X a w) as [[x w1]|] eqn:E; [| discriminate Hrun].
    cbn in Hrun. injection Hrun as <-.
    exact (model_platform_keeps_bytes X a w w1 x Hcall E).
Qed.

Lemma caller_bytes_untouched_witness :
  exists w' : tracing,
    exec (@model_platform sample_header)
      (@shim_body sample_header (call_label_useraction (Ptr 64) (Ptr 200))) idle
    = Some (tt, w')
    /\ trace_stream w' = [(64, Some 200)]
    /\ touches_no_memory
         (@shim_body sample_header (call_label_useraction (Ptr 64) (Ptr 200)))
    /\ byte_buffers w' = byte_buffers idle.
Proof.
  eexists. split; [vm_compute; reflexivity |].
  split; [reflexivity |].
  apply (@caller_bytes_untouched sample_header
           (call_label_useraction (Ptr 64) (Ptr 200)) idle).
  vm_compute. reflexivity.
Defined.

(** ** Scopes *)

Lemma scope_ind_nested (P : scope -> Prop) :
  (forall activity state inner, Forall P inner -> P (Scope activity state inner)) ->
  forall s, P s.
Proof.
  intros step. fix rec 1. intros [activity state inner]. apply step.
  induction inner as [| s inner IH]; constructor; [apply rec | exact IH].
Qed.

Section RunLog.
Context `{OSActivityHeader} {W : Type} (h : handler W).

Lemma run_log_app (cs1 cs2 : list shim_call) (w : W) :
  run_log h (cs1 ++ cs2) w =
  match run_log h cs1 w, run h cs1 w with
  | Some ws1, Some w1 =>
      match run_log h cs2 w1 with
      | Some ws2 => Some (ws1 ++ ws2)
      | None => None
      end
  | _, _ => None
  end.
Proof.
  revert w. induction cs1 as [| c cs1 IH]; intros w; cbn [app run_log run].
  - destruct (run_log h cs2 w); reflexivity.
  - destruct (exec h (shim_body c) w) as [[u w1]|]; [| reflexivity].
    rewrite IH.
    destruct (run_log h cs1 w1) as [ws1 |], (run h cs1 w1) as [w2 |];
      try reflexivity.
    destruct (run_log h cs2 w2); reflexivity.
Qed.

End RunLog.

Section UnwindingFacts.
Context `{OSActivityHeader}.

Lemma unwinds_nil (enclosing : list Z) (w : tracing) : unwinds enclosing [] [] w.
Proof. exists [], w. repeat split. Qed.

Lemma unwinds_app (enclosing : list Z) (cs1 cs2 : list shim_call)
    (stacks1 stacks2 : list (list os_activity_t)) (w : tracing) :
  unwinds enclosing cs1 stacks1 w ->
  (forall w1, scope_stack w1 = scope_stack w -> unwinds enclosing cs2 stacks2 w1) ->
  unwinds enclosing (cs1 ++ cs2) (stacks1 ++ stacks2) w.
Proof.
  intros (ws1 & w1 & Hlog1 & Hrun1 & Hst1 & Hstack1 & Hbuf1) Hnext.
  destruct (Hnext w1 Hstack1) as (ws2 & w2 & Hlog2 & Hrun2 & Hst2 & Hstack2 & Hbuf2).
  exists (ws1 ++ ws2), w2.
  split; [rewrite run_log_app, Hlog1, Hrun1, Hlog2; reflexivity |].
  split; [rewrite run_app, Hrun1; exact Hrun2 |].
  split; [rewrite map_app, Hst1, Hst2; reflexivity |].
  split; [congruence |].
  intros b Hb. rewrite (Hbuf2 b Hb). apply Hbuf1, Hb.
Qed.

(** A forest of scopes unwinds when each of its scopes does. *)
Lemma unwinds_forest (enclosing : list Z) (scopes : list scope) :
  Forall (fun s => forall enclosing w,
            well_nested enclosing s = true ->
            unwinds enclosing (scope_calls s) (lifo_stacks (scope_stack w) s) w)
         scopes ->
  forallb (well_nested enclosing) scopes = true ->
  forall w,
    unwinds enclosing (flat_map scope_calls scopes)
      (flat_map (lifo_stacks (scope_stack w)) scopes) w.
Proof.
  induction 1 as [| s scopes Hs _ IH]; intros Hwf w; cbn [flat_map].
  - apply unwinds_nil.
  - cbn [forallb] in Hwf. apply andb_true_iff in Hwf as [Hwf_s Hwf_rest].
    apply unwinds_app.
    + apply Hs, Hwf_s.
    + intros w1 Hstack. rewrite <- Hstack. apply IH, Hwf_rest.
Qed.

(** One scope: enter, the scopes inside, leave. *)
Lemma unwinds_scope (s : scope) :
  forall enclosing w,
    well_nested enclosing s = true ->
    unwinds enclosing (scope_calls s) (lifo_stacks (scope_stack w) s) w.
Proof.
  induction s as [activity state inner IH] using scope_ind_nested.
  intros enclosing w Hwf. cbn [well_nested] in Hwf.
  apply andb_true_iff in Hwf as [Hwf Hinner].
  apply andb_true_iff in Hwf as [Hwf Hfree].
  apply andb_true_iff in Hwf as [Hactivity Hstate].
  apply negb_true_iff in Hactivity, Hstate, Hfree.
  destruct (model_scope_enter_does activity state w Hactivity Hstate)
    as (w1 & Henter & Hstack1 & Hstates1).
  destruct (unwinds_forest (address state :: enclosing) inner IH Hinner w1)
    as (ws & w2 & Hlog & Hrun & Hstacks & Hstack & Hbuf).
  rewrite Hstack1 in Hstacks, Hstack.
  destruct (model_scope_leave_does state w2 activity (scope_stack w) Hstack)
    as (w3 & Hleave & Hstack3 & Hstates3).
  { rewrite (Hbuf (address state) (or_introl eq_refl)), Hstates1.
    apply lookup_insert_eq. }
  exists (w1 :: ws ++ [w3]), w3.
  cbn [scope_calls lifo_stacks].
  split.
  { cbn [run_log shim_body]. rewrite exec_model_scope_enter, Henter.
    rewrite run_log_app, Hlog, Hrun.
    cbn [run_log shim_body]. rewrite exec_model_scope_leave, Hleave. reflexivity. }
  split.
  { cbn [run shim_body]. rewrite exec_model_scope_enter, Henter.
    rewrite run_app, Hrun.
    cbn [run shim_body]. rewrite exec_model_scope_leave, Hleave. reflexivity. }
  split.
  { cbn [map]. rewrite map_app, Hstacks, Hstack1. cbn [map]. rewrite Hstack3.
    reflexivity. }
  split; [exact Hstack3 |].
  intros b Hb. rewrite Hstates3.
  assert (Hne : address state <> b).
  { intros E. apply not_true_iff_false in Hfree. apply Hfree.
    apply existsb_exists. exists b. split; [exact Hb | rewrite E; apply Z.eqb_refl]. }
  rewrite lookup_delete_ne by exact Hne.
  rewrite (Hbuf b (or_intror Hb)), Hstates1.
  apply lookup_insert_ne, Hne.
Qed.

End UnwindingFacts.

(** C2. On the model of the tracing subsystem: for a non-null activity and a
    non-null scope-state buffer, scope-enter makes the activity the active
    one and scope-leave on the same buffer right after it restores the stack,
    hence the active activity, of before the enter; and any nesting of
    enter/leave pairs in which no pair uses the buffer of a pair still open
    around it runs to the end, the stack after each call holding exactly the
    activities of the pairs entered and not yet left, innermost first, so
    that the pairs unwind last in, first out and the stack ends as it began. *)
Theorem scope_round_trip_and_lifo `{OSActivityHeader} :
  (forall (activity : os_activity_t) (state : os_activity_scope_state_t) (w : tracing),
     is_null activity = false -> is_null state = false ->
     exists w1 w2 : tracing,
       exec model_platform (_etcetera_os_activity_scope_enter activity state) w
       = Some (tt, w1)
       /\ active_activity w1 = Some activity
       /\ exec model_platform (_etcetera_os_activity_scope_leave state) w1
          = Some (tt, w2)
       /\ scope_stack w2 = scope_stack w
       /\ active_activity w2 = active_activity w)
  /\ (forall (scopes : list scope) (w : tracing),
        forallb (well_nested []) scopes = true ->
        exists (ws : list tracing) (w' : tracing),
          run_log model_platform (flat_map scope_calls scopes) w = Some ws
          /\ run model_platform (flat_map scope_calls scopes) w = Some w'
          /\ map scope_stack ws = flat_map (lifo_stacks (scope_stack w)) scopes
          /\ scope_stack w' = scope_stack w
          /\ active_activity w' = active_activity w).
Proof.
  split.
  - intros activity state w Hactivity Hstate.
    destruct (model_scope_enter_does activity state w Hactivity Hstate)
      as (w1 & Henter & Hstack1 & Hstates1).
    destruct (model_scope_leave_does state w1 activity (scope_stack w) Hstack1)
      as (w2 & Hleave & Hstack2 & _).
    { rewrite Hstates1. apply lookup_insert_eq. }
    exists w1, w2.
    rewrite exec_model_scope_enter, exec_model_scope_leave.
    unfold active_activity. rewrite Hstack1, Hstack2.
    repeat split; assumption.
  - intros scopes w Hwf.
    destruct (unwinds_forest [] scopes) with (w := w)
      as (ws & w' & Hlog & Hrun & Hstacks & Hstack & _).
    + apply Forall_forall. intros s _. apply unwinds_scope.
    + exact Hwf.
    + exists ws, w'. unfold active_activity. rewrite Hstack. repeat split; assumption.
Qed.

Lemma scope_round_trip_and_lifo_witness :
  (exists w1 w2 : tracing,
     exec (@model_platform sample_header)
       (_etcetera_os_activity_scope_enter (Ptr 4105) (Ptr 800)) idle = Some (tt, w1)
     /\ active_activity w1 = Some (Ptr 4105)
     /\ exec (@model_platform sample_header)
          (_etcetera_os_activity_scope_leave (Ptr 800)) w1 = Some (tt, w2)
     /\ scope_stack w2 = []
     /\ active_activity w2 = None)
  /\ (exists (ws : list tracing) (w' : tracing),
        @run_log sample_header _ (@model_platform sample_header)
          [call_scope_enter (Ptr 4105) (Ptr 800);
           call_scope_enter (Ptr 4106) (Ptr 816);
           call_scope_leave (Ptr 816);
           call_scope_enter (Ptr 4107) (Ptr 816);
           call_scope_leave (Ptr 816);
           call_scope_leave (Ptr 800)] idle = Some ws
        /\ @run sample_header _ (@model_platform sample_header)
             [call_scope_enter (Ptr 4105) (Ptr 800);
              call_scope_enter (Ptr 4106) (Ptr 816);
              call_scope_leave (Ptr 816);
              call_scope_enter (Ptr 4107) (Ptr 816);
              call_scope_leave (Ptr 816);
              call_scope_leave (Ptr 800)] idle = Some w'
        /\ map scope_stack ws
           = [[Ptr 4105]; [Ptr 4106; Ptr 4105]; [Ptr 4105];
              [Ptr 4107; Ptr 4105]; [Ptr 4105]; []]
        /\ scope_stack w' = []
        /\ active_activity w' = None).
Proof.
  split.
  - apply (proj1 (@scope_round_trip_and_lifo sample_header) (Ptr 4105) (Ptr 800) idle);
      reflexivity.
  - apply (proj2 (@scope_round_trip_and_lifo sample_header)
             [Scope (Ptr 4105) (Ptr 800)
                [Scope (Ptr 4106) (Ptr 816) []; Scope (Ptr 4107) (Ptr 816) []]]
             idle).
    reflexivity.
Defined.

(** * Further properties of the header, on every platform *)

(** ** The getters in a sequence of calls *)

Lemma exec_sentinel_getter `{OSActivityHeader} {W : Type} (h : handler W)
    (c : shim_call) (w : W) :
  is_sentinel_getter c = true -> exec h (shim_body c) w = Some (tt, w).
Proof.
  destruct c; cbn [is_sentinel_getter]; intros Hc; try discriminate Hc; reflexivity.
Qed.

(** X1. Calls of get-none-activity and get-current-activity are neutral in
    any sequence of shim calls, on every platform: dropping all of them from
    the sequence, or putting one in anywhere, changes neither whether the
    run completes nor the state it ends in. *)
Theorem sentinel_getters_are_neutral `{OSActivityHeader} (W : Type) (h : handler W)
    (cs cs1 cs2 : list shim_call) (w : W) :
  run h (List.filter (fun c => negb (is_sentinel_getter c)) cs) w = run h cs w
  /\ run h (cs1 ++ call_none :: cs2) w = run h (cs1 ++ cs2) w
  /\ run h (cs1 ++ call_current :: cs2) w = run h (cs1 ++ cs2) w.
Proof.
  split; [| split].
  - revert w. induction cs as [| c cs IH]; intros w; [reflexivity |].
    cbn [List.filter]. destruct (is_sentinel_getter c) eqn:Hc; cbn [negb run].
    + rewrite (exec_sentinel_getter h c w Hc). apply IH.
    + destruct (exec h (shim_body c) w) as [[u w'] |]; [apply IH | reflexivity].
  - rewrite !run_app. destruct (run h cs1 w) as [w1 |]; reflexivity.
  - rewrite !run_app. destruct (run h cs1 w) as [w1 |]; reflexivity.
Qed.

(** ** What the platform receives from a sequence of calls *)

Section Recording.
Context `{OSActivityHeader} {W : Type} (h : handler W).

Lemma exec_recording (c : shim_call) (w : W) (log : list received) :
  exec (recording h) (shim_body c) (w, log) =
  match exec h (shim_body c) w with
  | Some (u, w') => Some (u, (w', log ++ first_action (shim_body c)))
  | None => None
  end.
Proof.
  destruct c as [| | dso description parent flags | dso name | activity state | state];
    cbn [shim_body _etcetera_os_activity_none _etcetera_os_activity_current
         _etcetera_os_activity_create _etcetera_os_activity_label_useraction
         _etcetera_os_activity_scope_enter _etcetera_os_activity_scope_leave
         call bind exec first_action].
  - rewrite app_nil_r. reflexivity.
  - rewrite app_nil_r. reflexivity.
  - unfold recording at 1. cbn [fst snd].
    destruct (h _ _ w) as [[x w'] |]; reflexivity.
  - unfold recording at 1. cbn [fst snd].
    destruct (h _ _ w) as [[x w'] |]; reflexivity.
  - unfold recording at 1. cbn [fst snd].
    destruct (h _ _ w) as [[x w'] |]; reflexivity.
  - unfold recording at 1. cbn [fst snd].
    destruct (h _ _ w) as [[x w'] |]; reflexivity.
Qed.

Lemma first_action_shim_body (c : shim_call) :
  Forall (fun r : received => is_platform_call (projT2 r) = true)
    (first_action (shim_body c))
  /\ length (first_action (shim_body c))
     = (if is_sentinel_getter c then 0 else 1)%nat.
Proof.
  destruct c; cbn; split; try reflexivity; repeat constructor.
Qed.

End Recording.

(** X2. On every platform, a sequence of shim calls hands the platform, in
    the caller's order, the one action the body of each call starts with and
    nothing else: keeping a record does not change the outcome of the run,
    the record is made of platform routines only (no load, store or free),
    and it has one entry per call that is not a sentinel getter, so never
    more entries than calls. *)
Theorem platform_receives_one_call_each `{OSActivityHeader} (W : Type)
    (h : handler W) (cs : list shim_call) (w : W) (log : list received) :
  run (recording h) cs (w, log)
  = match run h cs w with
    | Some w' =>
        Some (w', log ++ flat_map (fun c => first_action (shim_body c)) cs)
    | None => None
    end
  /\ Forall (fun r : received => is_platform_call (projT2 r) = true)
       (flat_map (fun c => first_action (shim_body c)) cs)
  /\ length (flat_map (fun c => first_action (shim_body c)) cs)
     = length (List.filter (fun c => negb (is_sentinel_getter c)) cs)
  /\ (length (flat_map (fun c => first_action (shim_body c)) cs) <= length cs)%nat.
Proof.
  split; [| split; [| split]].
  - revert w log. induction cs as [| c cs IH]; intros w log; cbn [run flat_map].
    + rewrite app_nil_r. reflexivity.
    + rewrite exec_recording.
      destruct (exec h (shim_body c) w) as [[u w'] |]; [| reflexivity].
      rewrite IH. destruct (run h cs w') as [w'' |]; [| reflexivity].
      rewrite app_assoc. reflexivity.
  - induction cs as [| c cs IH]; cbn [flat_map]; [constructor |].
    apply Forall_app. split; [apply first_action_shim_body | exact IH].
  - induction cs as [| c cs IH]; cbn [flat_map List.filter]; [reflexivity |].
    rewrite length_app, (proj2 (first_action_shim_body c)), IH.
    destruct (is_sentinel_getter c); reflexivity.
  - induction cs as [| c cs IH]; cbn [flat_map length]; [lia |].
    rewrite length_app, (proj2 (first_action_shim_body c)).
    destruct (is_sentinel_getter c); lia.
Qed.

Example record_of_a_run :
  snd <$> @run sample_header _ (recording (@model_platform sample_header))
            [call_create (Ptr 64) NULL (Ptr 4104) 0; call_current;
             call_scope_enter (Ptr 4105) (Ptr 800);
             call_label_useraction (Ptr 64) (Ptr 200);
             call_scope_leave (Ptr 800)] (idle, [])
  = Some [(existT _ (_os_activity_create (Ptr 64) NULL (Ptr 4104) 0) : received);
          (existT _ (os_activity_scope_enter (Ptr 4105) (Ptr 800)) : received);
          (existT _ (_os_activity_label_useraction (Ptr 64) (Ptr 200)) : received);
          (existT _ (os_activity_scope_leave (Ptr 800)) : received)].
Proof. vm_compute. reflexivity. Qed.

(** ** What carries over from the platform to its callers through the shims *)

(** X3. Whatever holds of the platform's state and is kept by each of its
    four routines is kept by every sequence of shim calls; nothing need be
    known of how the platform treats loads, stores and frees, since the shims
    perform none. *)
Theorem platform_invariants_carry_over `{OSActivityHeader} (W : Type)
    (h : handler W) (I : W -> Prop) (cs : list shim_call) (w w' : W) :
  (forall (X : Type) (a : action X) (w1 w2 : W) (x : X),
     is_platform_call a = true -> I w1 -> h X a w1 = Some (x, w2) -> I w2) ->
  I w ->
  run h cs w = Some w' ->
  I w'.
Proof.
  intros Hkeep. revert w. induction cs as [| c cs IH]; intros w Hw Hrun; cbn [run] in Hrun.
  - injection Hrun as <-. exact Hw.
  - destruct (exec h (shim_body c) w) as [[u w1] |] eqn:Hc; [| discriminate Hrun].
    apply (IH w1); [| exact Hrun].
    destruct (shim_body_outcome c) as [Hconst | (X & a & Hcall & Hfwd)].
    + rewrite Hconst in Hc. injection Hc as _ <-. exact Hw.
    + rewrite Hfwd in Hc.
      destruct (h X a w) as [[x w2] |] eqn:Ha; [| discriminate Hc].
      cbn in Hc. injection Hc as _ <-.
      exact (Hkeep X a w w2 x Hcall Hw Ha).
Qed.

Lemma platform_invariants_carry_over_witness :
  exists w' : tracing,
    @run sample_header _ (@model_platform sample_header)
      [call_create (Ptr 64) (Ptr 200) (Ptr 4104) 0;
       call_scope_enter (Ptr 4105) (Ptr 800);
       call_label_useraction (Ptr 64) (Ptr 200);
       call_current;
       call_scope_leave (Ptr 800)] idle = Some w'
    /\ byte_buffers w' = byte_buffers idle.
Proof.
  eexists. split; [vm_compute; reflexivity |].
  apply (@platform_invariants_carry_over sample_header tracing
           (@model_platform sample_header)
           (fun w => byte_buffers w = byte_buffers idle)
           [call_create (Ptr 64) (Ptr 200) (Ptr 4104) 0;
            call_scope_enter (Ptr 4105) (Ptr 800);
            call_label_useraction (Ptr 64) (Ptr 200);
            call_current;
            call_scope_leave (Ptr 800)] idle).
  - intros X a w1 w2 x Hcall Hw1 Ha.
    rewrite (@model_platform_keeps_bytes sample_header X a w1 w2 x Hcall Ha).
    exact Hw1.
  - reflexivity.
  - vm_compute. reflexivity.
Defined.

(** X4. Two platforms whose four routines simulate each other (from related
    states a routine is undefined on both, or gives the same answer on both
    and related states) cannot be told apart through the shims: every
    sequence of shim calls is undefined on both, or ends in related states. *)
Theorem shims_respect_simulation `{OSActivityHeader} (W1 W2 : Type)
    (h1 : handler W1) (h2 : handler W2) (R : W1 -> W2 -> Prop)
    (cs : list shim_call) (w1 : W1) (w2 : W2) :
  (forall (X : Type) (a : action X) (v1 : W1) (v2 : W2),
     is_platform_call a = true -> R v1 v2 ->
     match h1 X a v1, h2 X a v2 with
     | Some (x1, v1'), Some (x2, v2') => x1 = x2 /\ R v1' v2'
     | None, None => True
     | _, _ => False
     end) ->
  R w1 w2 ->
  same_outcome R (run h1 cs w1) (run h2 cs w2).
Proof.
  intros Hsim. revert w1 w2.
  induction cs as [| c cs IH]; intros w1 w2 Hw; cbn [run]; [exact Hw |].
  destruct (shim_body_outcome c) as [Hconst | (X & a & Hcall & Hfwd)].
  - rewrite !Hconst. apply IH, Hw.
  - rewrite !Hfwd. specialize (Hsim X a w1 w2 Hcall Hw).
    destruct (h1 X a w1) as [[x1 v1] |], (h2 X a w2) as [[x2 v2] |]; cbn.
    + apply IH, Hsim.
    + destruct Hsim.
    + destruct Hsim.
    + exact I.
Qed.

Lemma shims_respect_simulation_witness :
  same_outcome (fun (w : tracing) (s : tracing * list received) => w = fst s)
    (@run sample_header _ (@model_platform sample_header)
       [call_create (Ptr 64) NULL (Ptr 4104) 0;
        call_scope_enter (Ptr 4105) (Ptr 800); call_none;
        call_scope_leave (Ptr 800)] idle)
    (@run sample_header _ (recording (@model_platform sample_header))
       [call_create (Ptr 64) NULL (Ptr 4104) 0;
        call_scope_enter (Ptr 4105) (Ptr 800); call_none;
        call_scope_leave (Ptr 800)] (idle, [])).
Proof.
  apply (@shims_respect_simulation sample_header tracing (tracing * list received)
           (@model_platform sample_header)
           (recording (@model_platform sample_header))
           (fun w s => w = fst s)).
  - intros X a v1 v2 _ ->. unfold recording.
    destruct (@model_platform sample_header X a (fst v2)) as [[x v] |];
      [split; reflexivity | exact I].
  - reflexivity.
Defined.
